(** * std_format_compat.h: the one-placeholder [std::format] shim

    A shallow embedding of
    [android/app/src/main/cpp/include/std_format_compat.h] and the properties
    of its two overloads,

      - [std::format(const char* fmt)], here [format0];
      - [std::format(const char* fmt, const T& value)], here [format1].

    The header relies on three [std::basic_string] members ([find],
    [replace], [operator+=]) and on [std::ostringstream]; they belong to the
    C++ standard library, and are modelled as the C++ standard specifies
    them. *)

From Stdlib Require Import Bool Arith Lia ZArith NArith.
From Stdlib Require Import Ascii String DecimalString DecimalZ DecimalN.

Local Open Scope string_scope.

(** ** Outcomes

    A call either returns a value or leaves by a C++ exception.  The only
    exception a member used by the header can raise on its own account is
    [std::out_of_range], from [basic_string::replace]. *)

Inductive exception : Set :=
| out_of_range.

Inductive outcome (A : Type) : Type :=
| Ok (a : A)
| Throw (e : exception).

Arguments Ok {A} a.
Arguments Throw {A} e.

Definition bind {A B : Type} (m : outcome A) (k : A -> outcome B) : outcome B :=
  match m with
  | Ok a => k a
  | Throw e => Throw e
  end.

Notation "x <- m ;; k" := (bind m (fun x => k))
  (at level 61, m at next level, right associativity).

(** ** Characters and C strings

    [char] is [ascii] (eight bits) and [std::string] is [string].  A
    [const char*] handed to the header points to a NUL-terminated array: what
    it denotes is the text before the terminator, which therefore holds no
    NUL itself.  [c_string] is that text together with this fact. *)

Definition NUL : ascii := Ascii.zero.

Fixpoint nul_free (s : string) : bool :=
  match s with
  | EmptyString => true
  | String c s' => negb (Ascii.eqb c NUL) && nul_free s'
  end.

Record c_string : Set := {
  chars : string;
  chars_nul_free : nul_free chars = true
}.

Module basic_string.

(** [std::string(const char* p)]: a copy of the characters of the C string. *)
Definition of_c_string (p : c_string) : string := chars p.

Definition size (s : string) : nat := String.length s.

(** The first [n] characters, and what follows them. *)
Fixpoint take (n : nat) (s : string) : string :=
  match n, s with
  | S n', String c s' => String c (take n' s')
  | _, _ => EmptyString
  end.

Fixpoint drop (n : nat) (s : string) : string :=
  match n, s with
  | S n', String _ s' => drop n' s'
  | _, _ => s
  end.

(** [p] is what [s] starts with. *)
Fixpoint starts_with (s p : string) {struct p} : bool :=
  match p, s with
  | EmptyString, _ => true
  | String a p', String b s' => Ascii.eqb a b && starts_with s' p'
  | String _ _, EmptyString => false
  end.

(** [s.find(p)]: the lowest position at which [p] occurs in [s]; [None]
    stands for [std::string::npos]. *)
Fixpoint find (s p : string) : option nat :=
  if starts_with s p then Some 0
  else match s with
       | EmptyString => None
       | String _ s' => option_map S (find s' p)
       end.

(** [s.replace(pos, n1, str)]: throws [std::out_of_range] when
    [pos > size()]; otherwise the [min(n1, size() - pos)] characters from
    [pos] give way to [str]. *)
Definition replace (s : string) (pos n1 : nat) (str : string) : outcome string :=
  if (size s <? pos)%nat then Throw out_of_range
  else
    let xlen := Nat.min n1 (size s - pos) in
    Ok (take pos s ++ str ++ drop (pos + xlen) s).

(** [s += str]. *)
Definition append (s str : string) : string := s ++ str.

End basic_string.

(** ** Stream insertion

    [std::ostringstream oss; oss << value; oss.str()].  The stream is its
    buffer; a type can be streamed when it has an [operator<<], which is what
    the class [Insertable] records.  The stream is a fresh one: decimal base,
    no field width, no [boolalpha], the classic locale. *)

Module ostringstream.

Definition t : Set := string.

Definition empty : t := EmptyString.

Definition str (oss : t) : string := oss.

End ostringstream.

Class Insertable (T : Type) : Type := {
  text : T -> string
}.

Definition insert {T : Type} `{Insertable T} (oss : ostringstream.t) (value : T)
  : ostringstream.t :=
  oss ++ text value.

Notation "oss << v" := (insert oss v) (at level 55, left associativity).

(** [int], [long] and the other signed integer types: the value in decimal,
    with a minus sign when negative. *)
#[export] Instance Insertable_int : Insertable Z := {
  text z := NilZero.string_of_int (Z.to_int z)
}.

(** The unsigned integer types. *)
#[export] Instance Insertable_unsigned : Insertable N := {
  text n := NilZero.string_of_uint (N.to_uint n)
}.

(** [std::string]: the characters as they are. *)
#[export] Instance Insertable_string : Insertable string := {
  text s := s
}.

(** [const char*] and string literals: the characters of the C string. *)
#[export] Instance Insertable_c_string : Insertable c_string := {
  text p := chars p
}.

(** [char]: the character itself. *)
#[export] Instance Insertable_char : Insertable ascii := {
  text c := String c EmptyString
}.

(** [bool]: [1] or [0]. *)
#[export] Instance Insertable_bool : Insertable bool := {
  text b := if b then "1" else "0"
}.

(** ** The header *)

Definition placeholder : string := "{}".

(** [inline std::string format(const char* fmt)] *)
Definition format0 (fmt : c_string) : string :=
  basic_string.of_c_string fmt.

(** [template <typename T>
     inline std::string format(const char* fmt, const T& value)] *)
Definition format1 {T : Type} `{Insertable T} (fmt : c_string) (value : T)
  : outcome string :=
  let s := basic_string.of_c_string fmt in
  let oss := ostringstream.empty in
  let oss := oss << value in
  let val := ostringstream.str oss in
  let pos := basic_string.find s placeholder in
  s <- match pos with
       | Some pos => basic_string.replace s pos 2 val
       | None => Ok (basic_string.append s val)
       end ;;
  Ok s.

(** ** Occurrences of a pattern

    The vocabulary of the properties below, defined apart from [find]:
    whether a pattern occurs in a string, how often, and, for the
    placeholder, as the two adjacent characters it consists of. *)

(** [p] occurs somewhere in [s]. *)
Fixpoint contains (s p : string) : bool :=
  basic_string.starts_with s p
  || match s with
     | EmptyString => false
     | String _ s' => contains s' p
     end.

(** The number of positions of [s] at which [p] occurs. *)
Fixpoint occurrences (s p : string) : nat :=
  (if basic_string.starts_with s p then 1 else 0)
  + match s with
    | EmptyString => 0
    | String _ s' => occurrences s' p
    end.

(** Some ['{'] of [s] is immediately followed by a ['}']. *)
Fixpoint adjacent_braces (s : string) : bool :=
  match s with
  | String a (String b _ as s') =>
      (Ascii.eqb a "{" && Ascii.eqb b "}") || adjacent_braces s'
  | _ => false
  end.

(** [c] is one of the characters of [s]. *)
Fixpoint has_char (c : ascii) (s : string) : bool :=
  match s with
  | EmptyString => false
  | String a s' => Ascii.eqb a c || has_char c s'
  end.

(** What a decimal numeral denotes. *)
Definition decimal_value (s : string) : option Z :=
  option_map Z.of_int (NilZero.int_of_string s).

(** ** From a [std::string] back to a C string

    [s.c_str()], and likewise a string literal used as a [const char*]: the
    characters are followed by a NUL, so that read as a C string they end at
    the first NUL among them (where [strlen] stops). *)

Fixpoint until_nul (s : string) : string :=
  match s with
  | EmptyString => EmptyString
  | String c s' => if Ascii.eqb c NUL then EmptyString else String c (until_nul s')
  end.

Lemma until_nul_free (s : string) : nul_free (until_nul s) = true.
Proof.
  induction s as [|c s IH]; simpl; [reflexivity|].
  destruct (Ascii.eqb c NUL) eqn:E; simpl; [reflexivity|].
  now rewrite E, IH.
Qed.

Definition c_str (s : string) : c_string :=
  {| chars := until_nul s; chars_nul_free := until_nul_free s |}.

(** * Properties *)

(** ** Strings *)

Section Strings.

Import basic_string.

Lemma length_append (a b : string) :
  String.length (a ++ b) = String.length a + String.length b.
Proof. induction a as [|x a IH]; simpl; [reflexivity | now rewrite IH]. Qed.

Lemma take_append (a b : string) : take (String.length a) (a ++ b) = a.
Proof. induction a as [|x a IH]; simpl; [now destruct b | now rewrite IH]. Qed.

Lemma drop_append (a b : string) (n : nat) :
  drop (String.length a + n) (a ++ b) = drop n b.
Proof. induction a as [|x a IH]; simpl; [reflexivity | exact IH]. Qed.

Lemma starts_with_iff (s p : string) :
  starts_with s p = true <-> exists r, s = p ++ r.
Proof.
  revert s; induction p as [|a p IH]; intros s; simpl.
  - split; [intros _; now exists s | reflexivity].
  - destruct s as [|b s].
    + split; [discriminate | intros [r Hr]; discriminate].
    + rewrite andb_true_iff, Ascii.eqb_eq, IH. split.
      * intros [-> [r ->]]. now exists r.
      * intros [r Hr]. injection Hr as -> ->. split; [reflexivity | now exists r].
Qed.

Lemma contains_iff (s p : string) :
  contains s p = true <-> exists pre post, s = pre ++ p ++ post.
Proof.
  induction s as [|c s IH]; simpl; rewrite orb_true_iff.
  - rewrite starts_with_iff. split.
    + intros [[r Hr] | H]; [now exists "", r | discriminate].
    + intros [[|x pre] [post H]]; [left; now exists post | discriminate].
  - rewrite starts_with_iff, IH. split.
    + intros [[r Hr] | [pre [post ->]]]; [now exists "", r |].
      now exists (String c pre), post.
    + intros [[|x pre] [post H]]; [left; now exists post |].
      right. injection H as _ ->. now exists pre, post.
Qed.

Lemma contains_occurrences (s p : string) :
  contains s p = true <-> 1 <= occurrences s p.
Proof.
  induction s as [|c s IH]; simpl.
  - destruct (starts_with "" p); simpl; split; (lia || discriminate || reflexivity).
  - destruct (starts_with (String c s) p); simpl.
    + split; [lia | reflexivity].
    + exact IH.
Qed.

(** The two readings of "the placeholder occurs" agree. *)
Lemma adjacent_braces_contains (s : string) :
  adjacent_braces s = contains s placeholder.
Proof.
  induction s as [|a s IH]; [reflexivity|].
  destruct s as [|b s].
  - cbn. now rewrite andb_false_r.
  - change (adjacent_braces (String a (String b s)))
      with ((Ascii.eqb a "{" && Ascii.eqb b "}") || adjacent_braces (String b s)).
    change (contains (String a (String b s)) placeholder)
      with (starts_with (String a (String b s)) placeholder
            || contains (String b s) placeholder).
    rewrite IH. f_equal. cbn.
    now rewrite andb_true_r, (Ascii.eqb_sym a), (Ascii.eqb_sym b).
Qed.

End Strings.

(** ** [find] and [replace] *)

Section Find.

Import basic_string.

Lemma starts_with_length (s p : string) :
  starts_with s p = true -> String.length p <= String.length s.
Proof.
  rewrite starts_with_iff. intros [r ->]. rewrite length_append. lia.
Qed.

(** A position [find] returns leaves room for the pattern. *)
Lemma find_bound (s p : string) (i : nat) :
  find s p = Some i -> i + String.length p <= size s.
Proof.
  unfold size. revert i; induction s as [|c s IH]; intros i; simpl.
  - destruct (starts_with "" p) eqn:E; [|discriminate].
    intros [= <-]. now apply starts_with_length in E.
  - destruct (starts_with (String c s) p) eqn:E.
    + intros [= <-]. now apply starts_with_length in E.
    + destruct (find s p) as [j|]; [|discriminate].
      intros [= <-]. specialize (IH j eq_refl). lia.
Qed.

(** The pattern stands at the position [find] returns ... *)
Lemma find_occurs (s p : string) (i : nat) :
  find s p = Some i -> starts_with (drop i s) p = true.
Proof.
  revert i; induction s as [|c s IH]; intros i; simpl.
  - destruct (starts_with "" p) eqn:E; [|discriminate]. now intros [= <-].
  - destruct (starts_with (String c s) p) eqn:E; [now intros [= <-]|].
    destruct (find s p) as [j|]; [|discriminate].
    intros [= <-]. now apply IH.
Qed.

(** ... and at no position before it. *)
Lemma find_lowest (s p : string) (i j : nat) :
  find s p = Some i -> j < i -> starts_with (drop j s) p = false.
Proof.
  revert i j; induction s as [|c s IH]; intros i j; simpl.
  - destruct (starts_with "" p); [|discriminate]. intros [= <-]. lia.
  - destruct (starts_with (String c s) p) eqn:E; [intros [= <-]; lia|].
    destruct (find s p) as [k|]; [|discriminate].
    intros [= <-] Hj. destruct j as [|j]; [exact E|].
    apply (IH k); [reflexivity | lia].
Qed.

(** [find] reports [npos] exactly when the pattern does not occur. *)
Lemma find_None_iff (s p : string) :
  find s p = None <-> contains s p = false.
Proof.
  induction s as [|c s IH]; simpl.
  - destruct (starts_with "" p); simpl; split; (discriminate || reflexivity).
  - destruct (starts_with (String c s) p); simpl.
    + split; discriminate.
    + rewrite <- IH. destruct (find s p); simpl; split; (discriminate || reflexivity).
Qed.

(** No occurrence of the placeholder straddles the end of [a] when a
    placeholder follows: its first character is not its second. *)
Lemma starts_with_placeholder_append (c : ascii) (a b : string) :
  starts_with (String c (a ++ placeholder ++ b)) placeholder
  = starts_with (String c a) placeholder.
Proof. destruct a as [|d a]; cbn; [now rewrite !andb_false_r | reflexivity]. Qed.

(** The first placeholder of [a ++ "{}" ++ b] is the one written, when [a]
    has none. *)
Lemma find_placeholder_append (a b : string) :
  contains a placeholder = false ->
  find (a ++ placeholder ++ b) placeholder = Some (String.length a).
Proof.
  induction a as [|c a IH]; [reflexivity|].
  cbn [contains]. rewrite orb_false_iff. intros [Hc Ha].
  cbn [String.append find String.length].
  rewrite starts_with_placeholder_append, Hc, (IH Ha). reflexivity.
Qed.

(** A string in which the placeholder occurs splits at its first one. *)
Lemma first_placeholder_split (s : string) :
  contains s placeholder = true ->
  exists a b, s = a ++ placeholder ++ b /\ contains a placeholder = false.
Proof.
  induction s as [|c s IH]; [discriminate|].
  cbn [contains]. destruct (starts_with (String c s) placeholder) eqn:E.
  - intros _. apply starts_with_iff in E as [r ->]. now exists "", r.
  - intros H. destruct (IH H) as [a [b [-> Ha]]].
    exists (String c a), b. split; [reflexivity|].
    cbn [contains]. rewrite starts_with_placeholder_append in E.
    now rewrite E, Ha.
Qed.

(** Occurrences add up across a placeholder. *)
Lemma occurrences_placeholder_append (a b : string) :
  occurrences (a ++ placeholder ++ b) placeholder
  = occurrences a placeholder + 1 + occurrences b placeholder.
Proof.
  induction a as [|c a IH].
  - destruct b; reflexivity.
  - cbn [String.append occurrences].
    rewrite starts_with_placeholder_append, IH. lia.
Qed.

(** [replace] accepts the position just past the last character, and throws
    beyond it. *)
Example replace_at_end : replace "abc" 3 2 "x" = Ok "abcx".
Proof. reflexivity. Qed.

Example replace_past_end : replace "abc" 4 2 "x" = Throw out_of_range.
Proof. reflexivity. Qed.

Example replace_short_tail : replace "abc" 2 5 "xy" = Ok "abxy".
Proof. reflexivity. Qed.

End Find.

(** ** Textual conversions *)

Lemma text_string (s : string) : text s = s.
Proof. reflexivity. Qed.

Lemma text_c_string (p : c_string) : text p = chars p.
Proof. reflexivity. Qed.

(** A signed integer is written as the decimal numeral that denotes it. *)
Lemma text_int_decimal (z : Z) : decimal_value (text z) = Some z.
Proof.
  unfold decimal_value; cbn [text Insertable_int].
  rewrite NilZero.isi.
  - cbn [option_map]. now rewrite DecimalZ.of_to.
  - destruct z as [|p|p]; cbn; try discriminate.
    intros [= E]. now apply DecimalPos.Unsigned.to_uint_nonnil in E.
  - destruct z as [|p|p]; cbn; try discriminate.
    intros [= E]. now apply DecimalPos.Unsigned.to_uint_nonnil in E.
Qed.

(** So is an unsigned one. *)
Lemma text_unsigned_decimal (n : N) :
  option_map N.of_uint (NilZero.uint_of_string (text n)) = Some n.
Proof.
  cbn [text Insertable_unsigned].
  rewrite NilZero.usu.
  - cbn [option_map]. now rewrite DecimalN.Unsigned.of_to.
  - destruct n as [|p]; cbn; [discriminate|].
    apply DecimalPos.Unsigned.to_uint_nonnil.
Qed.

Example text_int_42 : text 42%Z = "42".
Proof. reflexivity. Qed.

Example text_int_minus_7 : text (-7)%Z = "-7".
Proof. reflexivity. Qed.

Example text_int_0 : text 0%Z = "0".
Proof. reflexivity. Qed.

(** ** C strings *)

Lemma until_nul_id (s : string) : nul_free s = true -> until_nul s = s.
Proof.
  induction s as [|c s IH]; simpl; [reflexivity|].
  rewrite andb_true_iff, negb_true_iff. intros [-> Hs]. now rewrite IH.
Qed.

(** Back and forth between a C string and a [std::string]. *)
Lemma of_c_string_c_str (p : c_string) :
  basic_string.of_c_string (c_str (basic_string.of_c_string p))
  = basic_string.of_c_string p.
Proof. destruct p as [s Hs]. cbn. now apply until_nul_id. Qed.

(** ** The two branches of [format1] *)

Section Branches.

Context {T : Type} `{Insertable T}.
Variables (fmt : c_string) (value : T).

(** The stream holds the text of the value, and nothing else. *)
Lemma stream_text :
  ostringstream.str (ostringstream.empty << value) = text value.
Proof. reflexivity. Qed.

(** A placeholder was found: the two characters at its position are
    replaced. *)
Lemma format1_found (pos : nat) :
  basic_string.find (chars fmt) placeholder = Some pos ->
  format1 fmt value
  = Ok (basic_string.take pos (chars fmt) ++ text value
        ++ basic_string.drop (pos + 2) (chars fmt)).
Proof.
  intros Hpos. unfold format1, basic_string.of_c_string.
  rewrite Hpos, stream_text.
  apply find_bound in Hpos. cbn [String.length placeholder] in Hpos.
  unfold basic_string.replace.
  destruct (Nat.ltb_spec (basic_string.size (chars fmt)) pos) as [Hlt|_]; [lia|].
  replace (Nat.min 2 _) with 2 by lia. reflexivity.
Qed.

(** None was found: the text is appended. *)
Lemma format1_not_found :
  basic_string.find (chars fmt) placeholder = None ->
  format1 fmt value = Ok (chars fmt ++ text value).
Proof.
  intros Hpos. unfold format1, basic_string.of_c_string.
  now rewrite Hpos, stream_text.
Qed.

(** The same, for a template in which the placeholder does not occur. *)
Lemma format1_absent :
  contains (chars fmt) placeholder = false ->
  format1 fmt value = Ok (chars fmt ++ text value).
Proof. intros Hfmt. now apply format1_not_found, find_None_iff. Qed.

(** The template split at its first placeholder. *)
Lemma format1_split (a b : string) :
  chars fmt = a ++ placeholder ++ b ->
  contains a placeholder = false ->
  format1 fmt value = Ok (a ++ text value ++ b).
Proof.
  intros Hfmt Ha.
  rewrite (format1_found (String.length a)).
  - rewrite Hfmt, take_append, drop_append. reflexivity.
  - rewrite Hfmt. now apply find_placeholder_append.
Qed.

End Branches.

(** ** The scenarios of the specification *)

Example scenario_hello : format0 (c_str "hello") = "hello".
Proof. reflexivity. Qed.

Example scenario_percent : format1 (c_str "{}%") 42%Z = Ok "42%".
Proof. reflexivity. Qed.

Example scenario_value : format1 (c_str "value: {}") (c_str "abc") = Ok "value: abc".
Proof. reflexivity. Qed.

Example scenario_no_placeholder :
  format1 (c_str "no placeholder") 7%Z = Ok "no placeholder7".
Proof. reflexivity. Qed.

Example scenario_two_placeholders : format1 (c_str "{}-{}") 1%Z = Ok "1-{}".
Proof. reflexivity. Qed.

(** * The claims *)

Import basic_string.

(** C1. For every template of the form [A ++ "{}" ++ B] in which neither [A]
    nor [B] holds a placeholder, and every value [v] that can be streamed,
    [format(t, v)] returns [A ++ text v ++ B]; [text v] is the default
    rendering of the value: a string is rendered as it is, a number as its
    decimal numeral. *)
Theorem format1_single_placeholder :
  (forall (T : Type) (I : Insertable T) (fmt : c_string) (A B : string) (v : T),
      chars fmt = A ++ "{}" ++ B ->
      contains A "{}" = false ->
      contains B "{}" = false ->
      format1 fmt v = Ok (A ++ text v ++ B))
  /\ (forall s : string, text s = s)
  /\ (forall p : c_string, text p = chars p)
  /\ (forall z : Z, decimal_value (text z) = Some z)
  /\ (forall n : N, option_map N.of_uint (NilZero.uint_of_string (text n)) = Some n).
Proof.
  split; [|split; [|split; [|split]]].
  - intros T I fmt A B v Hfmt HA _. now apply format1_split.
  - exact text_string.
  - exact text_c_string.
  - exact text_int_decimal.
  - exact text_unsigned_decimal.
Qed.

Lemma format1_single_placeholder_witness :
  chars (c_str "width: {}px") = "width: " ++ "{}" ++ "px"
  /\ contains "width: " "{}" = false
  /\ contains "px" "{}" = false
  /\ format1 (c_str "width: {}px") 42%Z = Ok "width: 42px".
Proof.
  split; [reflexivity|]. split; [reflexivity|]. split; [reflexivity|].
  exact (proj1 format1_single_placeholder Z _ (c_str "width: {}px")
           "width: " "px" 42%Z eq_refl eq_refl eq_refl).
Defined.

(** C2. For every template in which the placeholder occurs twice or more,
    and every value [v], [format(t, v)] replaces the leftmost occurrence only:
    the template splits at its first placeholder into [A] and [B], the result
    is [A ++ text v ++ B], and [B], kept as it is, holds every other
    occurrence.  So [format("{}-{}", 5)] is ["5-{}"]. *)
Theorem format1_replaces_first_only :
  forall (T : Type) (I : Insertable T) (fmt : c_string) (v : T),
    2 <= occurrences (chars fmt) "{}" ->
    (exists A B, chars fmt = A ++ "{}" ++ B /\ contains A "{}" = false)
    /\ (forall A B,
           chars fmt = A ++ "{}" ++ B ->
           contains A "{}" = false ->
           format1 fmt v = Ok (A ++ text v ++ B)
           /\ S (occurrences B "{}") = occurrences (chars fmt) "{}").
Proof.
  intros T I fmt v. change "{}" with placeholder. intros Hocc. split.
  - apply first_placeholder_split, contains_occurrences. lia.
  - intros A B Hfmt HA. split; [now apply format1_split|].
    rewrite Hfmt, occurrences_placeholder_append.
    destruct (occurrences A placeholder) as [|n] eqn:E; [lia|].
    assert (contains A placeholder = true) as HA'
        by (apply contains_occurrences; lia).
    congruence.
Qed.

Lemma format1_replaces_first_only_witness :
  2 <= occurrences (chars (c_str "{}-{}")) "{}"
  /\ format1 (c_str "{}-{}") 5%Z = Ok "5-{}".
Proof.
  split; [apply le_n|].
  exact (proj1 (proj2 (format1_replaces_first_only Z _ (c_str "{}-{}") 5%Z (le_n 2))
                  "" "-{}" eq_refl eq_refl)).
Defined.

(** C3. For every template in which the placeholder does not occur, and every
    value [v], [format(t, v)] is [t ++ text v]: the text is appended. *)
Theorem format1_appends_without_placeholder :
  forall (T : Type) (I : Insertable T) (fmt : c_string) (v : T),
    contains (chars fmt) "{}" = false ->
    format1 fmt v = Ok (chars fmt ++ text v).
Proof.
  intros T I fmt v Hfmt. now apply format1_absent.
Qed.

Lemma format1_appends_without_placeholder_witness :
  contains (chars (c_str "no placeholder")) "{}" = false
  /\ format1 (c_str "no placeholder") 7%Z = Ok "no placeholder7".
Proof.
  split; [reflexivity|].
  exact (format1_appends_without_placeholder Z _ (c_str "no placeholder") 7%Z eq_refl).
Defined.

(** C4. For every template, whatever it holds, placeholders included, the
    form without an argument returns the template as it is: the characters of
    the C string it is given, which for a template written as the text [s]
    are those of [s]. *)
Theorem format0_returns_template :
  (forall fmt : c_string, format0 fmt = chars fmt)
  /\ (forall s : string, nul_free s = true -> format0 (c_str s) = s).
Proof.
  split.
  - intros fmt. reflexivity.
  - intros s Hs. unfold format0, of_c_string. cbn [chars c_str].
    now apply until_nul_id.
Qed.

Lemma format0_returns_template_witness :
  nul_free "{} of {}" = true
  /\ format0 (c_str "{} of {}") = "{} of {}".
Proof.
  split; [reflexivity|].
  exact (proj2 format0_returns_template "{} of {}" eq_refl).
Defined.

(** C5. The length of [format(t, v)] is the length of [t], less the two
    characters of the placeholder when [t] holds one, plus the length of
    [text v].  (The subtraction is exact: the second equation says the same
    with additions only.) *)
Theorem format1_length :
  forall (T : Type) (I : Insertable T) (fmt : c_string) (v : T),
  exists r : string,
    format1 fmt v = Ok r
    /\ String.length r
       = (if contains (chars fmt) "{}"
          then String.length (chars fmt) - 2 + String.length (text v)
          else String.length (chars fmt) + String.length (text v))
    /\ String.length r + (if contains (chars fmt) "{}" then 2 else 0)
       = String.length (chars fmt) + String.length (text v).
Proof.
  intros T I fmt v. change "{}" with placeholder.
  destruct (contains (chars fmt) placeholder) eqn:E.
  - destruct (first_placeholder_split _ E) as [A [B [Hfmt HA]]].
    exists (A ++ text v ++ B). split; [now apply format1_split|].
    rewrite Hfmt, !length_append. cbn [String.length placeholder]. lia.
  - exists (chars fmt ++ text v).
    split; [now apply format1_absent|].
    rewrite length_append. lia.
Qed.

(** C6. Both forms return for every template, and for every value that can
    be streamed: neither has an error outcome.  ([replace] is the one member
    that can throw, and the position [find] hands it is within the string.) *)
Theorem format_total :
  forall (T : Type) (I : Insertable T) (fmt : c_string) (v : T),
    (exists r : string, format0 fmt = r)
    /\ (exists r : string, format1 fmt v = Ok r)
    /\ (forall e : exception, format1 fmt v <> Throw e).
Proof.
  intros T I fmt v.
  assert (exists r, format1 fmt v = Ok r) as [r Hr].
  { destruct (find (chars fmt) placeholder) as [pos|] eqn:E.
    - eexists. exact (format1_found fmt v pos E).
    - eexists. exact (format1_not_found fmt v E). }
  split; [|split].
  - now exists (format0 fmt).
  - now exists r.
  - intros e. rewrite Hr. discriminate.
Qed.

(** C7. The form without an argument is idempotent: applied to its own
    result (as a C string, through [c_str()]), it returns that result. *)
Theorem format0_idempotent :
  forall fmt : c_string, format0 (c_str (format0 fmt)) = format0 fmt.
Proof. intros fmt. apply of_c_string_c_str. Qed.

(** C8. For the empty template and every value [v], [format("", v)] is
    [text v]. *)
Theorem format1_empty_template :
  forall (T : Type) (I : Insertable T) (v : T),
    format1 (c_str "") v = Ok (text v).
Proof. intros T I v. exact (format1_absent (c_str "") v eq_refl). Qed.

(** C9. The inserted text is placed as it is and is not searched again: for
    every template split at its first placeholder into [A] and [B],
    [format(t, v)] is [A ++ text v ++ B], whatever [text v] holds; and when
    [text v] is ["{}"], [format("{}", v)] is ["{}"]. *)
Theorem format1_inserted_text_not_rescanned :
  (forall (T : Type) (I : Insertable T) (fmt : c_string) (A B : string) (v : T),
      chars fmt = A ++ "{}" ++ B ->
      contains A "{}" = false ->
      format1 fmt v = Ok (A ++ text v ++ B))
  /\ (forall (T : Type) (I : Insertable T) (v : T),
         text v = "{}" -> format1 (c_str "{}") v = Ok "{}").
Proof.
  split.
  - intros T I fmt A B v Hfmt HA. now apply format1_split.
  - intros T I v Hv.
    rewrite (format1_split (c_str "{}") v "" "" eq_refl eq_refl), Hv. reflexivity.
Qed.

Lemma format1_inserted_text_not_rescanned_witness :
  chars (c_str "<{}>{}") = "<" ++ "{}" ++ ">{}"
  /\ contains "<" "{}" = false
  /\ format1 (c_str "<{}>{}") "{}{}" = Ok "<{}{}>{}"
  /\ text "{}" = "{}"
  /\ format1 (c_str "{}") "{}" = Ok "{}".
Proof.
  split; [reflexivity|]. split; [reflexivity|]. split; [|split; [reflexivity|]].
  - exact (proj1 format1_inserted_text_not_rescanned string _ (c_str "<{}>{}")
             "<" ">{}" "{}{}" eq_refl eq_refl).
  - exact (proj2 format1_inserted_text_not_rescanned string _ "{}" eq_refl).
Defined.

(** C10. Only a ['{'] immediately followed by a ['}'] is a placeholder: for
    every template that holds braces but no such pair, and every value [v],
    nothing is replaced and [format(t, v)] is [t ++ text v]. *)
Theorem format1_lone_braces_not_placeholder :
  forall (T : Type) (I : Insertable T) (fmt : c_string) (v : T),
    has_char "{" (chars fmt) || has_char "}" (chars fmt) = true ->
    adjacent_braces (chars fmt) = false ->
    format1 fmt v = Ok (chars fmt ++ text v).
Proof.
  intros T I fmt v _ Hadj.
  apply format1_absent.
  now rewrite adjacent_braces_contains in Hadj.
Qed.

Lemma format1_lone_braces_not_placeholder_witness :
  has_char "{" (chars (c_str "a{b}c")) || has_char "}" (chars (c_str "a{b}c")) = true
  /\ adjacent_braces (chars (c_str "a{b}c")) = false
  /\ format1 (c_str "a{b}c") 7%Z = Ok "a{b}c7".
Proof.
  split; [reflexivity|]. split; [reflexivity|].
  exact (format1_lone_braces_not_placeholder Z _ (c_str "a{b}c") 7%Z eq_refl eq_refl).
Defined.

Example format1_reversed_braces : format1 (c_str "}{") 7%Z = Ok "}{7".
Proof. reflexivity. Qed.

(** * Further properties of [format1] *)

(** ** More on strings and occurrences *)

Lemma string_append_assoc (a b c : string) : (a ++ b) ++ c = a ++ b ++ c.
Proof. induction a as [|x a IH]; simpl; [reflexivity | now rewrite IH]. Qed.

Lemma string_append_empty_r (a : string) : a ++ "" = a.
Proof. induction a as [|x a IH]; simpl; [reflexivity | now rewrite IH]. Qed.

Lemma string_append_cancel_l (a x y : string) : a ++ x = a ++ y -> x = y.
Proof. induction a as [|c a IH]; simpl; [easy | intros [= E]; auto]. Qed.

Lemma string_append_cancel_r (b x y : string) : x ++ b = y ++ b -> x = y.
Proof.
  revert y; induction x as [|c x IH]; intros [|d y] E; simpl in E.
  - reflexivity.
  - apply (f_equal String.length) in E. simpl in E. rewrite length_append in E. lia.
  - apply (f_equal String.length) in E. simpl in E. rewrite length_append in E. lia.
  - injection E as -> E. now rewrite (IH y E).
Qed.

Lemma nul_free_append (a b : string) :
  nul_free (a ++ b) = nul_free a && nul_free b.
Proof.
  induction a as [|c a IH]; simpl; [reflexivity|].
  now rewrite IH, andb_assoc.
Qed.

(** A string without occurrence has none in what it starts with. *)
Lemma contains_append_false_l (a b p : string) :
  contains (a ++ b) p = false -> contains a p = false.
Proof.
  intros H. destruct (contains a p) eqn:E; [|reflexivity].
  apply contains_iff in E as [pre [post ->]].
  assert (contains ((pre ++ p ++ post) ++ b) p = true) as H'.
  { apply contains_iff. exists pre, (post ++ b).
    now rewrite !string_append_assoc. }
  congruence.
Qed.

(** Occurrences of the placeholder in the two parts of a string are
    occurrences in the whole ... *)
Lemma occurrences_append_le (a b : string) :
  occurrences a placeholder + occurrences b placeholder
  <= occurrences (a ++ b) placeholder.
Proof.
  induction a as [|c a IH]; [simpl; lia|].
  cbn [String.append occurrences].
  assert ((if starts_with (String c a) placeholder then 1 else 0)
          <= (if starts_with (String c (a ++ b)) placeholder then 1 else 0)) as Hc.
  { destruct (starts_with (String c a) placeholder) eqn:E; [|lia].
    apply starts_with_iff in E as [r E].
    assert (starts_with (String c (a ++ b)) placeholder = true) as ->; [|lia].
    apply starts_with_iff. exists (r ++ b).
    change (String c (a ++ b)) with (String c a ++ b).
    now rewrite E, string_append_assoc. }
  lia.
Qed.

(** ... and they are all of them, when the second part does not start with
    a closing brace ... *)
Lemma occurrences_append_no_closing (a b : string) :
  starts_with b "}" = false ->
  occurrences (a ++ b) placeholder
  = occurrences a placeholder + occurrences b placeholder.
Proof.
  intros Hb. induction a as [|c a IH]; [reflexivity|].
  cbn [String.append occurrences]. rewrite IH.
  assert (starts_with (String c (a ++ b)) placeholder
          = starts_with (String c a) placeholder) as ->; [|lia].
  destruct a as [|d a]; cbn; [|reflexivity].
  cbn in Hb. now rewrite Hb, !andb_false_r.
Qed.

(** ... or when the first part holds no opening brace at all. *)
Lemma occurrences_append_no_opening (a b : string) :
  has_char "{" a = false ->
  occurrences (a ++ b) placeholder = occurrences b placeholder.
Proof.
  induction a as [|c a IH]; [reflexivity|].
  cbn [has_char]. rewrite orb_false_iff. intros [Hc Ha].
  cbn [String.append occurrences]. rewrite (IH Ha).
  cbn [starts_with placeholder]. now rewrite (Ascii.eqb_sym "{" c), Hc.
Qed.

Lemma starts_with_closing_append (a b : string) :
  0 < String.length a -> has_char "}" a = false -> starts_with (a ++ b) "}" = false.
Proof.
  destruct a as [|c a]; [simpl; lia|].
  cbn [has_char String.append starts_with]. rewrite orb_false_iff. intros _ [Hc _].
  now rewrite (Ascii.eqb_sym "}" c), Hc.
Qed.

(** ** The digits of an integer *)

Lemma uint_digits (c : ascii) (d : Decimal.uint) :
  has_char c "0123456789" = false ->
  has_char c (NilEmpty.string_of_uint d) = false.
Proof.
  cbn [has_char]. rewrite !orb_false_iff.
  intros (H0 & H1 & H2 & H3 & H4 & H5 & H6 & H7 & H8 & H9 & _).
  induction d as [|d IH|d IH|d IH|d IH|d IH|d IH|d IH|d IH|d IH|d IH];
    cbn [NilEmpty.string_of_uint has_char]; [reflexivity|..];
    rewrite IH, orb_false_r; assumption.
Qed.

Lemma text_int_chars (c : ascii) (z : Z) :
  has_char c "-0123456789" = false -> has_char c (text z) = false.
Proof.
  cbn [has_char]. rewrite orb_false_iff. intros [Hm Hd].
  assert (forall d, has_char c (NilZero.string_of_uint d) = false) as Hu.
  { intros d. destruct d; try (now apply uint_digits).
    cbn [NilZero.string_of_uint has_char].
    cbn [has_char] in Hd. rewrite !orb_false_iff in Hd.
    now rewrite (proj1 Hd). }
  cbn [text Insertable_int].
  destruct (Z.to_int z) as [d|d]; cbn [NilZero.string_of_int has_char].
  - apply Hu.
  - now rewrite Hm, Hu.
Qed.


Lemma text_int_nul_free (z : Z) : nul_free (text z) = true.
Proof.
  assert (forall s, has_char NUL s = false -> nul_free s = true) as H.
  { induction s as [|c s IH]; simpl; [reflexivity|].
    rewrite orb_false_iff. intros [-> Hs]. now rewrite IH. }
  apply H, text_int_chars. reflexivity.
Qed.

Lemma occurrences_zero (s p : string) :
  contains s p = false -> occurrences s p = 0.
Proof.
  intros Hs. destruct (occurrences s p) eqn:E; [reflexivity|].
  assert (contains s p = true) by (apply contains_occurrences; lia).
  congruence.
Qed.

(** ** The shape of a result *)

Section Shape.

Context {T : Type} `{Insertable T}.
Variables (fmt : c_string) (value : T).

(** Whatever the template, the result is the text of the value between two
    parts of the template: the parts around its first placeholder, or the
    whole template and nothing. *)
Lemma format1_shape :
  exists pre post : string,
    format1 fmt value = Ok (pre ++ text value ++ post)
    /\ contains pre placeholder = false
    /\ (chars fmt = pre ++ placeholder ++ post \/ (chars fmt = pre /\ post = "")).
Proof.
  destruct (contains (chars fmt) placeholder) eqn:E.
  - destruct (first_placeholder_split _ E) as [a [b [Hfmt Ha]]].
    exists a, b. split; [now apply format1_split|]. split; [exact Ha | now left].
  - exists (chars fmt), "". split; [|split; [exact E | now right]].
    rewrite string_append_empty_r. now apply format1_absent.
Qed.

(** The placeholders of the result, when the text holds no brace and is not
    empty: those of the template but one. *)
Lemma format1_occurrences :
  0 < String.length (text value) ->
  has_char "{" (text value) = false ->
  has_char "}" (text value) = false ->
  exists r : string,
    format1 fmt value = Ok r
    /\ occurrences r placeholder = occurrences (chars fmt) placeholder - 1.
Proof.
  intros Hlen Hopen Hclose.
  destruct format1_shape as [pre [post [Hr [Hpre Hfmt]]]].
  exists (pre ++ text value ++ post). split; [exact Hr|].
  apply occurrences_zero in Hpre.
  rewrite occurrences_append_no_closing
    by now apply starts_with_closing_append.
  rewrite occurrences_append_no_opening by exact Hopen.
  destruct Hfmt as [-> | [-> ->]].
  - rewrite occurrences_placeholder_append. lia.
  - cbn. lia.
Qed.

End Shape.

(** Two values with the same result on one template have the same text. *)
Lemma format1_text_inj {T U : Type} `{Insertable T} `{Insertable U}
    (fmt : c_string) (v : T) (w : U) :
  format1 fmt v = format1 fmt w -> text v = text w.
Proof.
  destruct (contains (chars fmt) placeholder) eqn:E.
  - destruct (first_placeholder_split _ E) as [a [b [Hfmt Ha]]].
    rewrite (format1_split fmt v a b Hfmt Ha), (format1_split fmt w a b Hfmt Ha).
    intros [= Heq]. apply string_append_cancel_l in Heq.
    now apply string_append_cancel_r in Heq.
  - rewrite (format1_absent fmt v E), (format1_absent fmt w E).
    intros [= Heq]. now apply string_append_cancel_l in Heq.
Qed.

(** ** Extras *)

(** X1. [format(t, v)] keeps every character of the template but the first
    placeholder, in order, and always holds the text of the value: the result
    is [pre ++ text v ++ post], where [pre] holds no placeholder and the
    template is either [pre ++ "{}" ++ post], or [pre] with [post] empty. *)
Theorem format1_keeps_template :
  forall (T : Type) (I : Insertable T) (fmt : c_string) (v : T),
  exists pre post : string,
    format1 fmt v = Ok (pre ++ text v ++ post)
    /\ contains pre "{}" = false
    /\ (chars fmt = pre ++ "{}" ++ post \/ (chars fmt = pre /\ post = "")).
Proof. intros T I fmt v. exact (format1_shape fmt v). Qed.

(** X2. Two calls in a row fill two placeholders from left to right: on a
    template [A ++ "{}" ++ B ++ "{}" ++ C], when the first text has no NUL and
    [A ++ text a ++ B] holds no placeholder, formatting [a] and then, on the
    [c_str()] of the result, [b] gives [A ++ text a ++ B ++ text b ++ C]. *)
Theorem format1_twice :
  forall (T U : Type) (I : Insertable T) (J : Insertable U)
         (fmt : c_string) (A B C : string) (a : T) (b : U),
    chars fmt = A ++ "{}" ++ B ++ "{}" ++ C ->
    contains (A ++ text a ++ B) "{}" = false ->
    nul_free (text a) = true ->
    exists r : string,
      format1 fmt a = Ok r
      /\ format1 (c_str r) b = Ok (A ++ text a ++ B ++ text b ++ C).
Proof.
  intros T U I J fmt A B C a b Hfmt Hfree Hnul.
  exists (A ++ text a ++ B ++ "{}" ++ C). split.
  - apply format1_split; [exact Hfmt|].
    now apply contains_append_false_l in Hfree.
  - assert (chars (c_str (A ++ text a ++ B ++ "{}" ++ C))
            = (A ++ text a ++ B) ++ placeholder ++ C) as Hr.
    { cbn [chars c_str]. rewrite !string_append_assoc. apply until_nul_id.
      pose proof (chars_nul_free fmt) as Hf.
      rewrite Hfmt, !nul_free_append, !andb_true_iff in Hf.
      destruct Hf as (HA & _ & HB & _ & HC).
      rewrite !nul_free_append. now rewrite HA, Hnul, HB, HC. }
    rewrite (format1_split _ b _ _ Hr Hfree).
    now rewrite !string_append_assoc.
Qed.

Lemma format1_twice_witness :
  chars (c_str "{} of {}.") = "" ++ "{}" ++ " of " ++ "{}" ++ "."
  /\ contains ("" ++ text 3%Z ++ " of ") "{}" = false
  /\ nul_free (text 3%Z) = true
  /\ exists r : string,
       format1 (c_str "{} of {}.") 3%Z = Ok r
       /\ format1 (c_str r) 10%N = Ok "3 of 10.".
Proof.
  split; [reflexivity|]. split; [reflexivity|]. split; [reflexivity|].
  exact (format1_twice Z N _ _ (c_str "{} of {}.") "" " of " "." 3%Z 10%N
           eq_refl eq_refl eq_refl).
Defined.

(** X3. A text that is not empty and holds no brace uses up exactly one
    placeholder: the result has one occurrence of ["{}"] fewer than the
    template (and none when the template has none). *)
Theorem format1_consumes_one_placeholder :
  forall (T : Type) (I : Insertable T) (fmt : c_string) (v : T),
    0 < String.length (text v) ->
    has_char "{" (text v) = false ->
    has_char "}" (text v) = false ->
    exists r : string,
      format1 fmt v = Ok r
      /\ occurrences r "{}" = occurrences (chars fmt) "{}" - 1.
Proof. intros T I fmt v. exact (format1_occurrences fmt v). Qed.

Lemma format1_consumes_one_placeholder_witness :
  0 < String.length (text "abc")
  /\ has_char "{" (text "abc") = false
  /\ has_char "}" (text "abc") = false
  /\ exists r : string,
       format1 (c_str "{{}} and {}") "abc" = Ok r
       /\ occurrences r "{}" = occurrences (chars (c_str "{{}} and {}")) "{}" - 1.
Proof.
  split; [cbn; lia|]. split; [reflexivity|]. split; [reflexivity|].
  exact (format1_consumes_one_placeholder string _ (c_str "{{}} and {}") "abc"
           (le_S _ _ (le_S _ _ (le_n 1))) eq_refl eq_refl).
Defined.


(** X5. No call uses up more than one placeholder, whatever the text: the
    result has at least the occurrences of the template but one. *)
Theorem format1_consumes_at_most_one :
  forall (T : Type) (I : Insertable T) (fmt : c_string) (v : T),
  exists r : string,
    format1 fmt v = Ok r
    /\ occurrences (chars fmt) "{}" - 1 <= occurrences r "{}".
Proof.
  intros T I fmt v. change "{}" with placeholder.
  destruct (format1_shape fmt v) as [pre [post [Hr [Hpre Hfmt]]]].
  exists (pre ++ text v ++ post). split; [exact Hr|].
  pose proof (occurrences_append_le pre (text v ++ post)) as H1.
  pose proof (occurrences_append_le (text v) post) as H2.
  apply occurrences_zero in Hpre.
  destruct Hfmt as [-> | [-> ->]].
  - rewrite occurrences_placeholder_append. lia.
  - lia.
Qed.

(** X6. On one template, the result determines the text: two values, of any
    two types, whose results are equal have equal texts. *)
Theorem format1_injective_in_text :
  forall (T U : Type) (I : Insertable T) (J : Insertable U)
         (fmt : c_string) (v : T) (w : U),
    format1 fmt v = format1 fmt w -> text v = text w.
Proof. intros T U I J fmt v w. apply format1_text_inj. Qed.

Lemma format1_injective_in_text_witness :
  format1 (c_str "{}%") 42%Z = format1 (c_str "{}%") "42"
  /\ text 42%Z = text "42".
Proof.
  split; [reflexivity|].
  exact (format1_injective_in_text Z string _ _ (c_str "{}%") 42%Z "42" eq_refl).
Defined.

(** X7. On one template, the result determines the integer: two integers
    whose results are equal are equal. *)
Theorem format1_injective_on_int :
  forall (fmt : c_string) (z1 z2 : Z),
    format1 fmt z1 = format1 fmt z2 -> z1 = z2.
Proof.
  intros fmt z1 z2 Heq. apply format1_text_inj in Heq.
  apply (f_equal decimal_value) in Heq.
  rewrite !text_int_decimal in Heq. now injection Heq.
Qed.

Lemma format1_injective_on_int_witness :
  format1 (c_str "n = {}") (-7)%Z = format1 (c_str "n = {}") (3 - 10)%Z
  /\ (-7)%Z = (3 - 10)%Z.
Proof.
  split; [reflexivity|].
  exact (format1_injective_on_int (c_str "n = {}") (-7)%Z (3 - 10)%Z eq_refl).
Defined.

(** X8. The result holds a NUL exactly when the text of the value does (the
    template, a C string, holds none); when it holds none, it survives the
    way through [c_str()] and the form without an argument. *)
Theorem format1_nul_free :
  forall (T : Type) (I : Insertable T) (fmt : c_string) (v : T),
  exists r : string,
    format1 fmt v = Ok r
    /\ nul_free r = nul_free (text v)
    /\ (nul_free (text v) = true -> format0 (c_str r) = r).
Proof.
  intros T I fmt v.
  destruct (format1_shape fmt v) as [pre [post [Hr [_ Hfmt]]]].
  exists (pre ++ text v ++ post). split; [exact Hr|].
  assert (nul_free (pre ++ text v ++ post) = nul_free (text v)) as Hnul.
  { pose proof (chars_nul_free fmt) as Hf.
    destruct Hfmt as [Hfmt | [Hfmt ->]];
      rewrite Hfmt, ?nul_free_append, ?andb_true_iff in Hf.
    - destruct Hf as (Hpre & _ & Hpost).
      rewrite !nul_free_append, Hpre, Hpost. now rewrite andb_true_r.
    - rewrite !nul_free_append, Hf. now rewrite andb_true_r. }
  split; [exact Hnul|].
  intros Hv. unfold format0, of_c_string. cbn [chars c_str].
  apply until_nul_id. now rewrite Hnul.
Qed.

(** X9. What follows a placeholder in the template does not matter to the
    substitution: when the template holds a placeholder, the template with
    [C] added at its end gives the result with [C] added at its end. *)
Theorem format1_suffix :
  forall (T : Type) (I : Insertable T) (fmt fmt' : c_string) (C : string)
         (v : T) (r : string),
    chars fmt' = chars fmt ++ C ->
    contains (chars fmt) "{}" = true ->
    format1 fmt v = Ok r ->
    format1 fmt' v = Ok (r ++ C).
Proof.
  intros T I fmt fmt' C v r Hfmt' Hc Hr.
  destruct (first_placeholder_split _ Hc) as [a [b [Hfmt Ha]]].
  rewrite (format1_split fmt v a b Hfmt Ha) in Hr. injection Hr as <-.
  rewrite !string_append_assoc. apply format1_split; [|exact Ha].
  now rewrite Hfmt', Hfmt, !string_append_assoc.
Qed.

Lemma format1_suffix_witness :
  chars (c_str "{}% off") = chars (c_str "{}%") ++ " off"
  /\ contains (chars (c_str "{}%")) "{}" = true
  /\ format1 (c_str "{}%") 42%Z = Ok "42%"
  /\ format1 (c_str "{}% off") 42%Z = Ok ("42%" ++ " off").
Proof.
  split; [reflexivity|]. split; [reflexivity|]. split; [reflexivity|].
  exact (format1_suffix Z _ (c_str "{}%") (c_str "{}% off") " off" 42%Z "42%"
           eq_refl eq_refl eq_refl).
Defined.

(** X10. A value whose text is the placeholder itself leaves a template that
    holds a placeholder as it is. *)
Theorem format1_placeholder_for_itself :
  forall (T : Type) (I : Insertable T) (fmt : c_string) (v : T),
    text v = "{}" ->
    contains (chars fmt) "{}" = true ->
    format1 fmt v = Ok (chars fmt).
Proof.
  intros T I fmt v Hv Hc.
  destruct (first_placeholder_split _ Hc) as [a [b [Hfmt Ha]]].
  now rewrite (format1_split fmt v a b Hfmt Ha), Hv, Hfmt.
Qed.

Lemma format1_placeholder_for_itself_witness :
  text "{}" = "{}"
  /\ contains (chars (c_str "a{}b{}")) "{}" = true
  /\ format1 (c_str "a{}b{}") "{}" = Ok "a{}b{}".
Proof.
  split; [reflexivity|]. split; [reflexivity|].
  exact (format1_placeholder_for_itself string _ (c_str "a{}b{}") "{}" eq_refl eq_refl).
Defined.
